(** * jest-environment-vite: the render pipeline and the environment lifecycle

    A shallow embedding of [packages/jest-environment-vite/src/index.js]:
    the script synthesizer at the head of [render], the calls [render] makes
    to its collaborators (Babel's [transformSync], the Selenium driver's
    [executeAsyncScript], the coverage map's [merge]), and the
    [setup]/[teardown] methods of [ViteEnvironment]. *)

From Stdlib Require Import String Ascii List Arith ZArith Lia.
From stdpp Require Import base option strings list gmap fin_maps.

Local Open Scope string_scope.
Local Open Scope list_scope.

Set Warnings "-register-all".

(** ** Errors

    The only error the code of [index.js] raises by itself is the runtime's
    [TypeError] (a property read on [undefined], a spread of a value that is
    not iterable, a call of something that is not a function).  Every other
    error comes out of a collaborator; the names are those of the error
    taxonomy of the specification. *)

Inductive Error : Type :=
  | TypeError
  | InvalidRequest
  | CompileError
  | SessionError
  | TimeoutError
  | RemoteExecutionError
  | MalformedCoverageError
  | EnvironmentClosedError
  | ExternalError (msg : string).

Inductive result (A : Type) : Type :=
  | Ok (a : A)
  | Err (e : Error).

Arguments Ok {A} a.
Arguments Err {A} e.

Definition rbind {A B : Type} (r : result A) (k : A -> result B) : result B :=
  match r with
  | Ok a => k a
  | Err e => Err e
  end.

Declare Scope result_scope.
Delimit Scope result_scope with result.
Notation "'let?' x ':=' r 'in' k" := (rbind r (fun x => k))
  (at level 10, x name, r at level 100, k at level 200) : result_scope.

(** ** The fragment of JavaScript values a request is made of

    [render] receives [data] untyped.  The fragment below is what the Babel
    plugin can put there (strings, arrays, plain objects) together with
    [undefined], [null] and booleans; numbers and functions are left out.
    A [string] stands for a JavaScript string, one character per code unit
    (code units below 256). *)

Module Js.

Inductive Value : Type :=
  | VUndefined
  | VNull
  | VBool (b : bool)
  | VString (s : string)
  | VArray (elems : list Value)
  | VObject (fields : list (string * Value)).

(** Own data properties of a plain object, first binding first. *)
Fixpoint own_property (fields : list (string * Value)) (k : string)
  : option Value :=
  match fields with
  | [] => None
  | (k', v) :: rest =>
      if String.eqb k' k then Some v else own_property rest k
  end.

(** [v.k], for a name [k] that no built-in prototype defines ([imports]
    and [code] are such names): reading a property of [undefined] or
    [null] throws, a plain object answers with its own property, every
    other value with [undefined]. *)
Definition get_field (v : Value) (k : string) : result Value :=
  match v with
  | VUndefined | VNull => Err TypeError
  | VObject fields =>
      Ok (match own_property fields k with
          | Some x => x
          | None => VUndefined
          end)
  | VBool _ | VString _ | VArray _ => Ok VUndefined
  end.

(** [...v] inside an array literal: arrays and strings are iterable,
    nothing else of the fragment is (other iterables, a [Set] or a
    [String] object, are outside it).  A string of the fragment has no
    surrogate pairs, so its iterator yields its characters one by one. *)
Definition spread (v : Value) : result (list Value) :=
  match v with
  | VArray elems => Ok elems
  | VString s =>
      Ok (map (fun c => VString (String c EmptyString))
              (list_ascii_of_string s))
  | VUndefined | VNull | VBool _ | VObject _ => Err TypeError
  end.

(** [v.startsWith(p)]: only strings have the method. *)
Definition startsWith (v : Value) (p : string) : result bool :=
  match v with
  | VString s => Ok (String.prefix p s)
  | _ => Err TypeError
  end.

Fixpoint intercalate (sep : string) (parts : list string) : string :=
  match parts with
  | [] => EmptyString
  | [s] => s
  | s :: rest => s +:+ sep +:+ intercalate sep rest
  end.

(** [ToString]: a plain object prints as [[object Object]] through the
    inherited method, unless an own [toString] property (never callable
    in this fragment) hides it, in which case the conversion throws.
    An array prints as its elements joined by commas, [undefined] and
    [null] elements as the empty string. *)
Fixpoint to_string (v : Value) : result string :=
  match v with
  | VUndefined => Ok "undefined"
  | VNull => Ok "null"
  | VBool true => Ok "true"
  | VBool false => Ok "false"
  | VString s => Ok s
  | VArray elems =>
      match
        (fix each (l : list Value) : result (list string) :=
           match l with
           | [] => Ok []
           | x :: rest =>
               match
                 match x with
                 | VUndefined | VNull => Ok EmptyString
                 | _ => to_string x
                 end
               with
               | Err e => Err e
               | Ok s =>
                   match each rest with
                   | Err e => Err e
                   | Ok ss => Ok (s :: ss)
                   end
               end
           end) elems
      with
      | Err e => Err e
      | Ok parts => Ok (intercalate "," parts)
      end
  | VObject fields =>
      match own_property fields "toString" with
      | Some _ => Err TypeError
      | None => Ok "[object Object]"
      end
  end.

(** One element of [Array.prototype.join]. *)
Definition join_element (x : Value) : result string :=
  match x with
  | VUndefined | VNull => Ok EmptyString
  | _ => to_string x
  end.

Fixpoint join_elements (l : list Value) : result (list string) :=
  match l with
  | [] => Ok []
  | x :: rest =>
      (let? s := join_element x in
       let? ss := join_elements rest in
       Ok (s :: ss))%result
  end.

(** [l.join(sep)] *)
Definition join (l : list Value) (sep : string) : result string :=
  (let? parts := join_elements l in Ok (intercalate sep parts))%result.

End Js.

Import Js.

(** ** The script synthesizer (lines 85 to 103 of [index.js]) *)

Definition newline : string := String (ascii_of_nat 10) EmptyString.
Definition dquote : string := String (ascii_of_nat 34) EmptyString.

Definition line_open : string := "async () => {".
Definition line_react : string :=
  "const React = (await import(" +:+ dquote +:+ "/node_modules/react.js"
    +:+ dquote +:+ ")).default;".
Definition line_react_dom : string :=
  "const ReactDOM = (await import(" +:+ dquote
    +:+ "/node_modules/react-dom.js" +:+ dquote +:+ ")).default;".
Definition line_container : string :=
  "const container = document.createElement(" +:+ dquote +:+ "container"
    +:+ dquote +:+ ");".
Definition line_append : string := "document.body.appendChild(container);".
Definition line_render : string :=
  "ReactDOM.render(element, container, () => callback({container: container, coverage: window.__coverage__}));".
Definition line_close : string := "}".

Definition thunk_prefix : string := "() =>".

(** The two shapes of the statement that binds [element]. *)
Definition element_invoked (code : string) : string :=
  "const element = (" +:+ code +:+ ")();".
Definition element_direct (code : string) : string :=
  "const element = " +:+ code +:+ ";".

(** The array [lines] as it stands when [lines.join] is called.  The array
    literal is evaluated first (it reads [data.imports] and spreads it),
    then [data.code] is read and tested, then the last two lines are
    pushed. *)
Definition script_lines (data : Value) : result (list Value) :=
  (let? imports := get_field data "imports" in
   let? spreaded := spread imports in
   let lines :=
     [VString line_open; VString line_react; VString line_react_dom]
       ++ spreaded
       ++ [VString line_container; VString line_append] in
   let? code := get_field data "code" in
   let? thunk := startsWith code thunk_prefix in
   let? text := to_string code in
   let lines :=
     lines ++ [VString (if thunk then element_invoked text
                        else element_direct text)] in
   Ok (lines ++ [VString line_render; VString line_close]))%result.

(** The script body handed to [transformSync]: the lines joined by line
    breaks. *)
Definition synthesize (data : Value) : result string :=
  (let? lines := script_lines data in join lines newline)%result.

(** A request as the Babel plugin writes it:
    [{code: "...", imports: ["...", ...]}]. *)
Definition request (code : string) (imports : list string) : Value :=
  VObject [("code", VString code); ("imports", VArray (map VString imports))].

(** The statement that binds [element] for a code that is a string,
    lines 94 to 98. *)
Definition element_line (code : string) : string :=
  if String.prefix thunk_prefix code then element_invoked code
  else element_direct code.

(** The lines of the script of a request of that shape, written out. *)
Definition body_lines (code : string) (imports : list string) : list string :=
  [line_open; line_react; line_react_dom]
    ++ imports
    ++ [line_container; line_append; element_line code;
        line_render; line_close].

(** The script of a request with these imports, whatever statement binds
    [element]. *)
Definition script_with (imports : list string) (statement : string)
  : string :=
  intercalate newline
    ([line_open; line_react; line_react_dom] ++ imports ++
     [line_container; line_append; statement; line_render; line_close]).

(** ** Coverage maps *)

Module Coverage.

(** Per-file counters: hit counts by location key; a coverage map (and a
    snapshot the browser sends back) gives the counters of each file. *)
Abbreviation FileCoverage := (gmap string nat).
Abbreviation CoverageMap := (gmap string (gmap string nat)).

(** Modelled from the spec: [istanbulLibCoverage.createCoverageMap({})],
    of a library that is not among the sources.  Section 4.5: [setup]
    initializes an empty coverage map. *)
Definition createCoverageMap : CoverageMap := ∅.

(** Modelled from the spec: [coverageMap.merge] is the method of
    istanbul-lib-coverage, which is not among the sources.  Section 4.4:
    per-file counters accumulate, hit counts sum, and the tables are
    unioned by location key. *)
Definition merge_file (mine theirs : FileCoverage) : FileCoverage :=
  union_with (fun a b => Some (a + b)) mine theirs.

(** Modelled from the spec: the same method, file by file (a file only
    one side knows keeps its counters). *)
Definition merge (map snapshot : CoverageMap) : CoverageMap :=
  union_with (fun a b => Some (merge_file a b)) map snapshot.

(** The hit count a map holds for a location of a file, 0 when absent. *)
Definition hits (map : CoverageMap) (file key : string) : nat :=
  default 0 (map !! file ≫= fun counters => counters !! key).

(** Every counter of every file doubled. *)
Definition doubled (map : CoverageMap) : CoverageMap :=
  (fun counters : FileCoverage => (fun n => 2 * n) <$> counters) <$> map.

End Coverage.

Import Coverage.

(** ** The environment and its collaborators *)

(** Handles the code only passes around. *)
Definition Driver : Type := nat.
Definition Server : Type := nat.
Definition Container : Type := string.

(** What the completion callback delivers:
    [{container: container, coverage: window.__coverage__}]. *)
Record ExecutionResult : Type := {
  container : Container;
  coverage : CoverageMap;
}.

(** Calls to the collaborators (the parent class, the libraries, the
    driver, the server), in the order they are made. *)
Inductive Event : Type :=
  | EvSuperSetup
  | EvSuperTeardown
  | EvRequireServer
  | EvStoppable (srv : Server) (grace : nat)
  | EvCreateCoverageMap
  | EvTransform (body : string)
  | EvExecute (drv : Driver) (code : string)
  | EvMerge (snapshot : CoverageMap)
  | EvReport (formats : list string) (map : option CoverageMap)
  | EvServerStop (srv : Server).

(** The collaborators, over a state of the outside world of their own.
    [transformSync] is synchronous and sees only its argument (its options
    are constant).  [executeAsyncScript] stands for the driver together
    with the wrapper [script], which runs in the browser; it answers with
    what the completion callback receives.  [stoppable] decorates the
    server in place.  The three reporter calls of [teardown] end in one
    [reporter_write]. *)
Class Collaborators (World : Type) : Type := {
  super_setup : World -> result Driver * World;
  super_teardown : World -> result unit * World;
  require_server : World -> result Server * World;
  stoppable : Server -> nat -> World -> result unit * World;
  transformSync : string -> result string;
  executeAsyncScript :
    Driver -> string -> World -> result ExecutionResult * World;
  reporter_write :
    list string -> option CoverageMap -> World -> result unit * World;
  server_stop : Server -> World -> result unit * World;
}.

(** The fields of a [ViteEnvironment]; [None] is a field not yet assigned.
    [driver] is [this.global.driver], assigned by the parent's [setup]. *)
Record Env : Type := {
  driver : option Driver;
  server : option Server;
  coverageMap : option CoverageMap;
  containers : option (list Container);
}.

Definition new_env : Env :=
  {| driver := None; server := None; coverageMap := None;
     containers := None |}.

Record Machine (World : Type) : Type := {
  world : World;
  env : Env;
  log : list Event;
}.

Arguments world {World} m.
Arguments env {World} m.
Arguments log {World} m.

(** A computation of the environment: it may throw, and what it did to the
    machine before throwing stays done. *)
Definition M (World A : Type) : Type :=
  Machine World -> result A * Machine World.

Section Monad.
Context {World : Type}.

Definition ret {A} (a : A) : M World A := fun m => (Ok a, m).

Definition throw {A} (e : Error) : M World A := fun m => (Err e, m).

Definition bind {A B} (c : M World A) (k : A -> M World B) : M World B :=
  fun m =>
    match c m with
    | (Ok a, m') => k a m'
    | (Err e, m') => (Err e, m')
    end.

Definition lift {A} (r : result A) : M World A := fun m => (r, m).

Definition emit (ev : Event) : M World unit :=
  fun m => (Ok tt, {| world := world m; env := env m;
                      log := log m ++ [ev] |}).

(** A call to a collaborator: logged, then answered by the world. *)
Definition call {A} (ev : Event) (f : World -> result A * World)
  : M World A :=
  fun m =>
    let (r, w) := f (world m) in
    (r, {| world := w; env := env m; log := log m ++ [ev] |}).

Definition get_env : M World Env := fun m => (Ok (env m), m).

Definition put_env (e : Env) : M World unit :=
  fun m => (Ok tt, {| world := world m; env := e; log := log m |}).

(** Reading a field that must hold an object: a method call on
    [undefined] throws. *)
Definition defined {A} (o : option A) : M World A :=
  match o with
  | Some a => ret a
  | None => throw TypeError
  end.
End Monad.

Declare Scope machine_scope.
Delimit Scope machine_scope with machine.
Notation "x <~ c ;; k" := (bind c (fun x => k))
  (at level 100, c at next level, right associativity) : machine_scope.
Notation "c ;;; k" := (bind c (fun _ => k))
  (at level 100, right associativity) : machine_scope.

Section Environment.
Context {World : Type} `{Collaborators World}.
Local Open Scope machine_scope.

(** [render(driver, coverageMap, data)], lines 78 to 121.  Its only call
    site (line 13) passes [this.coverageMap], the object [merge] then
    updates in place: the parameter is the field of the environment. *)
Definition render (drv : option Driver) (data : Value)
  : M World Container :=
  body <~ lift (synthesize data) ;;
  emit (EvTransform body) ;;;
  code <~ lift (transformSync body) ;;
  d <~ defined drv ;;
  r <~ call (EvExecute d code) (executeAsyncScript d code) ;;
  e <~ get_env ;;
  map <~ defined (coverageMap e) ;;
  emit (EvMerge (coverage r)) ;;;
  put_env {| driver := driver e; server := server e;
             coverageMap := Some (merge map (coverage r));
             containers := containers e |} ;;;
  ret (container r).

(** [this.global.render], lines 11 to 13. *)
Definition global_render (data : Value) : M World Container :=
  e <~ get_env ;;
  render (driver e) data.

(** [setup], lines 16 to 23. *)
Definition setup : M World unit :=
  d <~ call EvSuperSetup super_setup ;;
  e <~ get_env ;;
  put_env {| driver := Some d; server := server e;
             coverageMap := coverageMap e;
             containers := containers e |} ;;;
  srv <~ call EvRequireServer require_server ;;
  e <~ get_env ;;
  put_env {| driver := driver e; server := Some srv;
             coverageMap := coverageMap e;
             containers := containers e |} ;;;
  call (EvStoppable srv 0) (stoppable srv 0) ;;;
  emit EvCreateCoverageMap ;;;
  e <~ get_env ;;
  put_env {| driver := driver e; server := server e;
             coverageMap := Some createCoverageMap;
             containers := containers e |} ;;;
  e <~ get_env ;;
  put_env {| driver := driver e; server := server e;
             coverageMap := coverageMap e;
             containers := Some [] |}.

(** The formats [teardown] adds to the reporter. *)
Definition report_formats : list string := ["json"; "text"; "lcov"].

(** [teardown], lines 25 to 32. *)
Definition teardown : M World unit :=
  call EvSuperTeardown super_teardown ;;;
  e <~ get_env ;;
  call (EvReport report_formats (coverageMap e))
       (reporter_write report_formats (coverageMap e)) ;;;
  srv <~ defined (server e) ;;
  call (EvServerStop srv) (server_stop srv).

(** The test file's calls to [render], one after the other; a call that
    throws fails its test and the next one runs on the same
    environment. *)
Fixpoint renders (requests : list Value) (m : Machine World)
  : list (result Container) * Machine World :=
  match requests with
  | [] => ([], m)
  | data :: rest =>
      let (r, m1) := global_render data m in
      let (rs, m2) := renders rest m1 in
      (r :: rs, m2)
  end.

(** A whole lifecycle: [setup], the renders of the test file,
    [teardown]. *)
Definition lifecycle (requests : list Value) (m : Machine World)
  : Machine World :=
  let (_, m1) := setup m in
  let (_, m2) := renders requests m1 in
  snd (teardown m2).
End Environment.

(** How many times the report sink was called. *)
Definition is_report (ev : Event) : bool :=
  match ev with
  | EvReport _ _ => true
  | _ => false
  end.

Definition is_execute (ev : Event) : bool :=
  match ev with
  | EvExecute _ _ => true
  | _ => false
  end.

Definition count_events (p : Event -> bool) (l : list Event) : nat :=
  length (filter (fun ev => p ev = true) l).

Definition is_merge (ev : Event) : bool :=
  match ev with
  | EvMerge _ => true
  | _ => false
  end.

Definition is_server_stop (ev : Event) : bool :=
  match ev with
  | EvServerStop _ => true
  | _ => false
  end.

(** The script bodies handed to [transformSync] in a stretch of the log. *)
Fixpoint transformed (l : list Event) : list string :=
  match l with
  | [] => []
  | EvTransform body :: rest => body :: transformed rest
  | _ :: rest => transformed rest
  end.

(** What the calls recorded in a log leave in [this.coverageMap]: the map
    is created empty and each merge folds one snapshot into it. *)
Fixpoint replay (l : list Event) (acc : option CoverageMap)
  : option CoverageMap :=
  match l with
  | [] => acc
  | EvCreateCoverageMap :: rest => replay rest (Some createCoverageMap)
  | EvMerge snapshot :: rest =>
      replay rest (option_map (fun map => merge map snapshot) acc)
  | _ :: rest => replay rest acc
  end.

(** The coverage map holds exactly the merges the log records. *)
Definition consistent {World : Type} (m : Machine World) : Prop :=
  coverageMap (env m) = replay (log m) None.

(** [data] is a request with this code and these imports (whatever other
    properties the object has). *)
Definition is_request (data : Value) (code : string) (imports : list string)
  : Prop :=
  get_field data "code" = Ok (VString code) /\
  get_field data "imports" = Ok (VArray (map VString imports)).

(** ** A laboratory world

    Collaborators simple enough to run: a session that answers from a
    queue of prepared replies while it is open, a transformer that rejects
    one script, a report sink that can be made to fail. *)

Record Lab : Type := {
  session_open : bool;
  replies : list (result ExecutionResult);
  sink_works : bool;
}.

Definition rejected_script : string :=
  intercalate newline (body_lines "<" []).

#[export] Instance lab_collaborators : Collaborators Lab := {
  super_setup w :=
    (Ok 1, {| session_open := true; replies := replies w;
              sink_works := sink_works w |});
  super_teardown w :=
    (Ok tt, {| session_open := false; replies := replies w;
               sink_works := sink_works w |});
  require_server w := (Ok 8, w);
  stoppable srv grace w := (Ok tt, w);
  transformSync body :=
    if String.eqb body rejected_script then Err CompileError else Ok body;
  executeAsyncScript d code w :=
    if session_open w then
      match replies w with
      | [] => (Err SessionError, w)
      | r :: rest =>
          (r, {| session_open := true; replies := rest;
                 sink_works := sink_works w |})
      end
    else (Err SessionError, w);
  reporter_write formats map w :=
    (if sink_works w then Ok tt else Err (ExternalError "EACCES"), w);
  server_stop srv w := (Ok tt, w);
}.

Definition lab (rs : list (result ExecutionResult)) (sink : bool)
  : Machine Lab :=
  {| world := {| session_open := false; replies := rs; sink_works := sink |};
     env := new_env;
     log := [] |}.

Definition foo_snapshot : CoverageMap :=
  {[ "foo.js" := {[ "s0" := 1; "s1" := 0; "f0" := 3 ]} ]}.

Definition foo_result : ExecutionResult :=
  {| container := "element-1"; coverage := foo_snapshot |}.

Definition foo_request : Value :=
  request "<Foo/>"
    ["const Foo = (await import(" +:+ dquote +:+ "./foo.js" +:+ dquote
       +:+ ")).default;"].

(** A world whose session cannot be released: the parent's [teardown]
    throws. *)
Inductive Wedged : Type :=
  | wedged.

#[export] Instance wedged_collaborators : Collaborators Wedged := {
  super_setup w := (Ok 5, w);
  super_teardown w := (Err SessionError, w);
  require_server w := (Ok 9, w);
  stoppable srv grace w := (Ok tt, w);
  transformSync body := Ok body;
  executeAsyncScript d code w := (Ok foo_result, w);
  reporter_write formats map w := (Ok tt, w);
  server_stop srv w := (Ok tt, w);
}.

Definition wedged_machine : Machine Wedged :=
  {| world := wedged; env := new_env; log := [] |}.

(** What the driver sends back, one reply after the other, to the requests
    of a test file that reach it (those whose script the synthesizer
    builds and the transformer compiles, on an environment with a
    driver); a call the driver fails leaves no reply.  The second
    component is the world the calls leave. *)
Section Replies.
Context {World : Type} `{Collaborators World}.

Fixpoint driver_replies (drv : option Driver) (requests : list Value)
    (w : World) : list ExecutionResult * World :=
  match requests with
  | [] => ([], w)
  | data :: rest =>
      match synthesize data with
      | Err _ => driver_replies drv rest w
      | Ok body =>
          match transformSync body with
          | Err _ => driver_replies drv rest w
          | Ok code =>
              match drv with
              | None => driver_replies drv rest w
              | Some d =>
                  let (reply, w') := executeAsyncScript d code w in
                  let (replies, w'') := driver_replies drv rest w' in
                  (match reply with
                   | Ok r => r :: replies
                   | Err _ => replies
                   end, w'')
              end
          end
      end
  end.
End Replies.

(** Laboratory environments: set up, and set up then torn down. *)
Definition lab_ready (rs : list (result ExecutionResult)) (sink : bool)
  : Machine Lab :=
  snd (setup (lab rs sink)).

Definition lab_closed (rs : list (result ExecutionResult)) (sink : bool)
  : Machine Lab :=
  snd (teardown (lab_ready rs sink)).

(** The calls made between two states of a machine. *)
Definition calls_since {World : Type} (m m' : Machine World) : list Event :=
  drop (length (log m)) (log m').

(** The machine one call of [render] leaves behind, stage by stage. *)
Section Stages.
Context {World : Type}.

Definition after_transform (m : Machine World) (body : string)
  : Machine World :=
  {| world := world m; env := env m; log := log m ++ [EvTransform body] |}.

Definition after_execute (m : Machine World) (body : string) (d : Driver)
    (code : string) (w : World) : Machine World :=
  {| world := w; env := env m;
     log := log m ++ [EvTransform body; EvExecute d code] |}.

Definition after_merge (m : Machine World) (body : string) (d : Driver)
    (code : string) (w : World) (map : CoverageMap)
    (r : ExecutionResult) : Machine World :=
  {| world := w;
     env := {| driver := driver (env m); server := server (env m);
               coverageMap := Some (merge map (coverage r));
               containers := containers (env m) |};
     log := log m ++ [EvTransform body; EvExecute d code;
                      EvMerge (coverage r)] |}.
End Stages.

(** Each statement of a block followed by a line break. *)
Definition block (statements : list string) : string :=
  fold_right (fun s text => s +:+ newline +:+ text) EmptyString statements.

(** Induction on values, through the elements of arrays and the
    properties of objects. *)
Section ValueInduction.
Variable P : Value -> Prop.
Hypothesis P_undefined : P VUndefined.
Hypothesis P_null : P VNull.
Hypothesis P_bool : forall b, P (VBool b).
Hypothesis P_string : forall s, P (VString s).
Hypothesis P_array : forall elems, Forall P elems -> P (VArray elems).
Hypothesis P_object :
  forall fields, Forall (fun kv => P (snd kv)) fields -> P (VObject fields).

Fixpoint Value_nested_ind (v : Value) : P v :=
  match v with
  | VUndefined => P_undefined
  | VNull => P_null
  | VBool b => P_bool b
  | VString s => P_string s
  | VArray elems =>
      P_array elems
        ((fix each (l : list Value) : Forall P l :=
            match l with
            | [] => @Lists.List.Forall_nil _ P
            | x :: rest =>
                @Lists.List.Forall_cons _ P x rest (Value_nested_ind x)
                  (each rest)
            end) elems)
  | VObject fields =>
      P_object fields
        ((fix each (l : list (string * Value))
            : Forall (fun kv => P (snd kv)) l :=
            match l with
            | [] => @Lists.List.Forall_nil _ _
            | kv :: rest =>
                @Lists.List.Forall_cons _ (fun kv => P (snd kv)) kv rest
                  (Value_nested_ind (snd kv))
                  (each rest)
            end) fields)
  end.
End ValueInduction.

(** ** The wrapper the driver runs in the browser (lines 108 to 112) *)

(** An index of [String.prototype.slice] brought into range: a negative
    one counts from the end. *)
Definition slice_index (len i : Z) : Z :=
  if (i <? 0)%Z then Z.max (len + i) 0 else Z.min i len.

(** [s.slice(first, last)] *)
Definition slice (s : string) (first last : Z) : string :=
  let len := Z.of_nat (String.length s) in
  let from := slice_index len first in
  let to := slice_index len last in
  substring (Z.to_nat from) (Z.to_nat (Z.max (to - from) 0)) s.

(** The body of the function [script] builds from the compiled code,
    line 110: the code without its last character, in parentheses, then
    called. *)
Definition script_source (code : string) : string :=
  "(" +:+ slice code 0 (-1) +:+ ")()".

(** ** Reading a log *)

Definition is_transform (ev : Event) : bool :=
  match ev with
  | EvTransform _ => true
  | _ => false
  end.

(** The snapshots merged in a stretch of the log, oldest first. *)
Fixpoint snapshots (l : list Event) : list CoverageMap :=
  match l with
  | [] => []
  | EvMerge snapshot :: rest => snapshot :: snapshots rest
  | _ :: rest => snapshots rest
  end.

(** The drivers [executeAsyncScript] was called on. *)
Fixpoint executed_on (l : list Event) : list Driver :=
  match l with
  | [] => []
  | EvExecute d _ :: rest => d :: executed_on rest
  | _ :: rest => executed_on rest
  end.

Definition is_ok {A : Type} (r : result A) : bool :=
  match r with
  | Ok _ => true
  | Err _ => false
  end.

(** How many of the calls returned. *)
Definition successes {A : Type} (rs : list (result A)) : nat :=
  length (filter (fun r => is_ok r = true) rs).

(** A world without the server module: [require] throws. *)
Inductive Offline : Type :=
  | offline (executed : nat).

#[export] Instance offline_collaborators : Collaborators Offline := {
  super_setup w := (Ok 3, w);
  super_teardown w := (Ok tt, w);
  require_server w := (Err (ExternalError "MODULE_NOT_FOUND"), w);
  stoppable srv grace w := (Ok tt, w);
  transformSync body := Ok body;
  executeAsyncScript d code w :=
    match w with
    | offline n => (Ok foo_result, offline (S n))
    end;
  reporter_write formats map w := (Ok tt, w);
  server_stop srv w := (Ok tt, w);
}.

Definition offline_machine : Machine Offline :=
  {| world := offline 0; env := new_env; log := [] |}.

(** * Properties *)

(** ** The script synthesizer *)

Lemma join_elements_strings (l : list string) :
  join_elements (map VString l) = Ok l.
Proof.
  induction l as [|s l IH]; simpl; [reflexivity|].
  rewrite IH. reflexivity.
Qed.

Lemma join_strings (l : list string) (sep : string) :
  join (map VString l) sep = Ok (intercalate sep l).
Proof. unfold join. rewrite join_elements_strings. reflexivity. Qed.

Lemma script_lines_request data code imports :
  is_request data code imports ->
  script_lines data = Ok (map VString (body_lines code imports)).
Proof.
  intros [Hcode Himports]. unfold script_lines, body_lines, element_line.
  rewrite Himports, Hcode. simpl.
  rewrite !map_app. simpl.
  rewrite <- !app_assoc. simpl.
  destruct (String.prefix thunk_prefix code); reflexivity.
Qed.

Lemma synthesize_request data code imports :
  is_request data code imports ->
  synthesize data = Ok (intercalate newline (body_lines code imports)).
Proof.
  intros Hreq. unfold synthesize.
  rewrite (script_lines_request _ _ _ Hreq). cbn [rbind].
  apply join_strings.
Qed.

(** An array prints as the join of its elements with commas. *)
Lemma to_string_array elems :
  to_string (VArray elems) = join elems ",".
Proof.
  unfold join. simpl.
  match goal with
  | |- match ?f elems with _ => _ end = _ =>
      assert (Heach : forall l, f l = join_elements l)
  end.
  { induction l as [|x rest IH]; [reflexivity|].
    simpl. rewrite IH. destruct x; reflexivity. }
  rewrite Heach. destruct (join_elements elems); reflexivity.
Qed.

(** Whatever goes wrong in the synthesizer is a [TypeError]. *)
Lemma join_elements_error l e :
  Forall (fun v => forall e, to_string v = Err e -> e = TypeError) l ->
  join_elements l = Err e -> e = TypeError.
Proof.
  induction 1 as [|x rest Hx _ IH]; simpl; [discriminate|].
  destruct (join_element x) as [s|e0] eqn:Ex; simpl.
  - destruct (join_elements rest); simpl; [discriminate|].
    intros [= <-]. auto.
  - intros [= <-]. destruct x; simpl in Ex; try discriminate; eauto.
Qed.

Lemma to_string_error v e : to_string v = Err e -> e = TypeError.
Proof.
  revert e. induction v as [| | b | s | elems IH | fields _]
    using Value_nested_ind; intros e.
  - discriminate.
  - discriminate.
  - destruct b; discriminate.
  - discriminate.
  - rewrite to_string_array. unfold join.
    destruct (join_elements elems) eqn:E; simpl; [discriminate|].
    intros [= <-]. eapply join_elements_error; eauto.
  - simpl. destruct (own_property fields "toString"); [|discriminate].
    intros [= <-]. reflexivity.
Qed.

Lemma join_error l sep e : join l sep = Err e -> e = TypeError.
Proof.
  unfold join. destruct (join_elements l) eqn:E; simpl; [discriminate|].
  intros [= <-]. eapply join_elements_error; [|exact E].
  apply Forall_forall. intros v _ e'. apply to_string_error.
Qed.

Lemma synthesize_error data e : synthesize data = Err e -> e = TypeError.
Proof.
  unfold synthesize, script_lines.
  destruct (get_field data "imports") as [imports|e0] eqn:Ei;
    [|destruct data; simpl in Ei; simplify_eq; simpl; congruence].
  cbn [rbind].
  destruct (spread imports) as [spreaded|e1] eqn:Es;
    [|destruct imports; simpl in Es; simplify_eq; simpl; congruence].
  cbn [rbind].
  destruct (get_field data "code") as [code|e2] eqn:Ec;
    [|destruct data; simpl in Ec; simplify_eq; simpl; congruence].
  cbn [rbind].
  destruct (startsWith code thunk_prefix) as [thunk|e3] eqn:Et;
    [|destruct code; simpl in Et; simplify_eq; simpl; congruence].
  cbn [rbind].
  destruct (to_string code) as [text|e4] eqn:Ex;
    [|apply to_string_error in Ex; subst; simpl; congruence].
  cbn [rbind]. apply join_error.
Qed.

Lemma append_cons (ch : ascii) (a b : string) :
  String ch a +:+ b = String ch (a +:+ b).
Proof. reflexivity. Qed.

Lemma append_assoc (a b c : string) : (a +:+ b) +:+ c = a +:+ b +:+ c.
Proof.
  induction a as [|ch a' IH]; [reflexivity|].
  rewrite !append_cons. f_equal. exact IH.
Qed.

Lemma length_append (a b : string) :
  String.length (a +:+ b) = String.length a + String.length b.
Proof.
  induction a as [|ch a' IH]; [reflexivity|].
  rewrite append_cons. simpl. f_equal. exact IH.
Qed.

Lemma block_app (l1 l2 : list string) :
  block (l1 ++ l2) = block l1 +:+ block l2.
Proof.
  induction l1 as [|s l1 IH]; simpl; [reflexivity|].
  now rewrite IH, !append_assoc.
Qed.

Lemma intercalate_cons (sep s : string) (l : list string) :
  l <> [] -> intercalate sep (s :: l) = s +:+ sep +:+ intercalate sep l.
Proof. destruct l; [congruence | reflexivity]. Qed.

Lemma intercalate_block (front back : list string) (last : string) :
  intercalate newline (front ++ back ++ [last]) =
  block front +:+ block back +:+ last.
Proof.
  induction front as [|s front IH]; simpl.
  - induction back as [|t back IHb]; [reflexivity|].
    change ((t :: back) ++ [last]) with (t :: (back ++ [last])).
    rewrite intercalate_cons by (destruct back; discriminate).
    simpl. now rewrite IHb, !append_assoc.
  - change (intercalate newline (s :: front ++ back ++ [last]) =
            (s +:+ newline +:+ block front) +:+ block back +:+ last).
    rewrite intercalate_cons by (destruct front, back; discriminate).
    now rewrite IH, !append_assoc.
Qed.

(** C1. For a request whose [imports] holds N statements, the array of
    lines, and so the script body that joins it, consists of the opening
    line and the two statements that bind React and ReactDOM, then exactly
    those N statements, verbatim and in their order, then the statement
    that creates the container and the rest of the script. *)
Theorem imports_verbatim_in_order data code imports :
  is_request data code imports ->
  let front := [line_open; line_react; line_react_dom] in
  let back := [line_container; line_append; element_line code; line_render] in
  script_lines data =
    Ok (map VString (front ++ imports ++ back ++ [line_close])) /\
  synthesize data =
    Ok (block front +:+ block imports +:+ block back +:+ line_close).
Proof.
  intros Hreq front back.
  assert (Hlines : body_lines code imports =
                   front ++ imports ++ back ++ [line_close]) by reflexivity.
  split.
  - rewrite <- Hlines. now apply script_lines_request.
  - rewrite (synthesize_request _ _ _ Hreq), Hlines.
    f_equal.
    rewrite (app_assoc imports back [line_close]).
    rewrite (intercalate_block front (imports ++ back) line_close).
    now rewrite block_app, append_assoc.
Qed.

Lemma imports_verbatim_in_order_witness :
  synthesize foo_request =
  Ok (block [line_open; line_react; line_react_dom]
      +:+ block ["const Foo = (await import(" +:+ dquote +:+ "./foo.js"
                   +:+ dquote +:+ ")).default;"]
      +:+ block [line_container; line_append; "const element = <Foo/>;";
                 line_render]
      +:+ line_close).
Proof.
  apply (imports_verbatim_in_order foo_request "<Foo/>").
  split; reflexivity.
Defined.

Lemma invoked_differs_from_direct code :
  element_invoked code <> element_direct code.
Proof.
  intros Heq. apply (f_equal String.length) in Heq.
  unfold element_invoked, element_direct in Heq.
  rewrite !length_append in Heq. simpl in Heq. lia.
Qed.

Lemma length_intercalate_at (sep s : string) (pre post : list string) :
  String.length (intercalate sep (pre ++ s :: post)) =
  String.length s +
  String.length (intercalate sep (pre ++ EmptyString :: post)).
Proof.
  induction pre as [|p pre IH].
  - destruct post as [|q post]; simpl; [lia|].
    rewrite !length_append. simpl. lia.
  - change ((p :: pre) ++ ?x :: post) with (p :: (pre ++ x :: post)).
    rewrite !intercalate_cons by (destruct pre; discriminate).
    rewrite !length_append, IH. lia.
Qed.

(** The script tells the two shapes of the statement apart. *)
Lemma script_with_invoked_differs (imports : list string) (code : string) :
  script_with imports (element_invoked code) <>
  script_with imports (element_direct code).
Proof.
  assert (Hsplit : forall x,
            [line_open; line_react; line_react_dom] ++ imports ++
              [line_container; line_append; x; line_render; line_close] =
            ([line_open; line_react; line_react_dom] ++ imports ++
               [line_container; line_append]) ++
              x :: [line_render; line_close]).
  { intros x. rewrite <- !app_assoc. reflexivity. }
  intros Heq. apply (f_equal String.length) in Heq.
  unfold script_with in Heq. rewrite !Hsplit in Heq.
  rewrite (length_intercalate_at newline (element_invoked code)) in Heq.
  rewrite (length_intercalate_at newline (element_direct code)) in Heq.
  assert (Hlen : String.length (element_invoked code) =
                 String.length (element_direct code)) by lia.
  unfold element_invoked, element_direct in Hlen.
  rewrite !length_append in Hlen. simpl in Hlen. lia.
Qed.

(** C2. The script handed to the transformer binds [element] by invoking
    the text of [code] exactly when that text starts with the five
    characters of the thunk introducer, and by evaluating it directly
    otherwise.  The test looks at the text only: in the synthesized script
    a thunk gets the wrapper, plain markup does not, and a comma expression
    that merely starts like a thunk gets it too. *)
Theorem wrapper_iff_thunk_prefix :
  (forall data code imports,
     is_request data code imports ->
     (synthesize data = Ok (script_with imports (element_invoked code)) <->
      String.prefix "() =>" code = true) /\
     (synthesize data = Ok (script_with imports (element_direct code)) <->
      String.prefix "() =>" code = false) /\
     exists statement,
       script_lines data =
         Ok (map VString
               ([line_open; line_react; line_react_dom] ++ imports ++
                [line_container; line_append; statement; line_render;
                 line_close])) /\
       synthesize data = Ok (script_with imports statement) /\
       (statement = element_invoked code <->
        String.prefix "() =>" code = true) /\
       (statement = element_direct code <->
        String.prefix "() =>" code = false)) /\
  synthesize (request "() => <Expr/>" []) =
    Ok (script_with [] "const element = (() => <Expr/>)();") /\
  synthesize (request "<Expr/>" []) =
    Ok (script_with [] "const element = <Expr/>;") /\
  synthesize (request "() => a, b" []) =
    Ok (script_with [] "const element = (() => a, b)();") /\
  element_line "() => <Expr/>" = "const element = (() => <Expr/>)();" /\
  element_line "<Expr/>" = "const element = <Expr/>;" /\
  element_line "() => a, b" = "const element = (() => a, b)();".
Proof.
  split.
  2: { split; [vm_compute; reflexivity|].
       split; [vm_compute; reflexivity|].
       split; [vm_compute; reflexivity|].
       split; [reflexivity|]. split; reflexivity. }
  intros data code imports Hreq.
  assert (Hbody : synthesize data =
                  Ok (script_with imports (element_line code))).
  { rewrite (synthesize_request _ _ _ Hreq). reflexivity. }
  pose proof (script_with_invoked_differs imports code) as Hscript.
  pose proof (invoked_differs_from_direct code) as Hne.
  unfold element_line, thunk_prefix in Hbody.
  split; [|split].
  - rewrite Hbody. destruct (String.prefix "() =>" code); split;
      intros; congruence.
  - rewrite Hbody. destruct (String.prefix "() =>" code); split;
      intros; congruence.
  - exists (element_line code). split; [now apply script_lines_request|].
    unfold element_line, thunk_prefix. split; [exact Hbody|].
    destruct (String.prefix "() =>" code); split; split; intros; congruence.
Qed.

Lemma wrapper_iff_thunk_prefix_witness :
  synthesize (request "() => <Expr/>" []) =
    Ok (script_with [] (element_invoked "() => <Expr/>")) <->
  String.prefix "() =>" "() => <Expr/>" = true.
Proof.
  exact (proj1 (proj1 wrapper_iff_thunk_prefix
                  (request "() => <Expr/>" []) "() => <Expr/>" []
                  (conj eq_refl eq_refl))).
Defined.

(** ** One call of [render] *)

Ltac run :=
  unfold global_render, render, setup, teardown, bind, lift, emit, call,
    defined, get_env, put_env, ret, throw in *;
  simpl in *.

Section RenderProperties.
Context {World : Type} `{Collaborators World}.

(** The outcome of a call, collaborator by collaborator. *)
Lemma render_unfold (drv : option Driver) (data : Value)
    (m : Machine World) :
  render drv data m =
  match synthesize data with
  | Err e => (Err e, m)
  | Ok body =>
      match transformSync body with
      | Err e => (Err e, after_transform m body)
      | Ok code =>
          match drv with
          | None => (Err TypeError, after_transform m body)
          | Some d =>
              match executeAsyncScript d code (world m) with
              | (Err e, w) => (Err e, after_execute m body d code w)
              | (Ok r, w) =>
                  match coverageMap (env m) with
                  | None => (Err TypeError, after_execute m body d code w)
                  | Some map =>
                      (Ok (container r), after_merge m body d code w map r)
                  end
              end
          end
      end
  end.
Proof.
  unfold after_transform, after_execute, after_merge. run.
  destruct (synthesize data) as [body|e]; [|reflexivity].
  destruct (transformSync body) as [code|e]; [|reflexivity].
  destruct drv as [d|]; [|reflexivity]. simpl.
  destruct (executeAsyncScript d code (world m)) as [[r|e] w]; simpl;
    [|now rewrite <- app_assoc].
  destruct (coverageMap (env m)); simpl; now rewrite <- !app_assoc.
Qed.

Lemma global_render_unfold (data : Value) (m : Machine World) :
  global_render data m = render (driver (env m)) data m.
Proof. reflexivity. Qed.


(** The script bodies a call hands to the transformer. *)
Lemma render_transformed drv data m :
  transformed (drop (length (log m)) (log (snd (render drv data m)))) =
  match synthesize data with
  | Ok body => [body]
  | Err _ => []
  end.
Proof.
  rewrite render_unfold.
  repeat case_match; simplify_eq; simpl;
    rewrite ?drop_app_length, ?drop_all; reflexivity.
Qed.

Lemma synthesize_fields d1 d2 :
  get_field d1 "code" = get_field d2 "code" ->
  get_field d1 "imports" = get_field d2 "imports" ->
  synthesize d1 = synthesize d2.
Proof.
  intros Hc Hi. unfold synthesize, script_lines. now rewrite Hc, Hi.
Qed.
End RenderProperties.

(** ** The synthesizer inside [render] *)

Section SynthesizerInRender.
Context {World : Type} `{Collaborators World}.

(** C10. Two calls of [render] whose requests read the same under [code]
    and under [imports] synthesize the same script body, and hand the
    same text to the transformer, whatever else the two request objects
    hold and whatever state the two environments are in. *)
Theorem synthesis_deterministic (d1 d2 : Value) (m1 m2 : Machine World) :
  get_field d1 "code" = get_field d2 "code" ->
  get_field d1 "imports" = get_field d2 "imports" ->
  synthesize d1 = synthesize d2 /\
  transformed (calls_since m1 (snd (global_render d1 m1))) =
  transformed (calls_since m2 (snd (global_render d2 m2))).
Proof.
  intros Hc Hi.
  pose proof (synthesize_fields d1 d2 Hc Hi) as Hs.
  split; [exact Hs|].
  unfold calls_since. rewrite !global_render_unfold, !render_transformed.
  now rewrite Hs.
Qed.

(** C6, as the code has it.  The synthesizer is a function of the request
    alone.  It succeeds on every request whose [code] is a string and
    whose [imports] is an array of strings, the empty ones included.  It
    has no check of its own: when it fails the request is not of that
    shape and the error is the runtime's [TypeError], which [render]
    passes on before any collaborator is called. *)
Theorem synthesizer_succeeds_on_requests (data : Value) :
  (forall code imports,
     is_request data code imports ->
     synthesize data = Ok (intercalate newline (body_lines code imports)))
  /\
  (forall e,
     synthesize data = Err e ->
     e = TypeError /\
     (~ exists code imports, is_request data code imports) /\
     forall m : Machine World, global_render data m = (Err e, m)).
Proof.
  split.
  - apply synthesize_request.
  - intros e He. split; [now apply synthesize_error in He|]. split.
    + intros (code & imports & Hreq).
      rewrite (synthesize_request _ _ _ Hreq) in He. discriminate.
    + intros m. rewrite global_render_unfold, render_unfold.
      now rewrite He.
Qed.
End SynthesizerInRender.

Lemma synthesis_deterministic_witness :
  synthesize (request "<Foo/>" ["const Foo = 1;"]) =
  synthesize (VObject [("imports", VArray [VString "const Foo = 1;"]);
                       ("kind", VString "markup");
                       ("code", VString "<Foo/>")]).
Proof.
  apply (synthesis_deterministic
           (request "<Foo/>" ["const Foo = 1;"])
           (VObject [("imports", VArray [VString "const Foo = 1;"]);
                     ("kind", VString "markup");
                     ("code", VString "<Foo/>")])
           (lab [] true) (lab [] true));
    reflexivity.
Defined.

Lemma synthesizer_succeeds_on_requests_witness :
  synthesize (request EmptyString []) =
  Ok (intercalate newline (body_lines EmptyString [])).
Proof.
  apply (proj1 (synthesizer_succeeds_on_requests
                  (World := Lab) (request EmptyString []))).
  split; reflexivity.
Defined.

(** What the claim of an [InvalidRequest] check meets in the code: the
    empty object is no request, and the synthesizer fails on it with a
    [TypeError]; the request with empty code and no imports is accepted. *)
Lemma malformed_request_gets_type_error :
  (~ exists code imports, is_request (VObject []) code imports) /\
  synthesize (VObject []) = Err TypeError /\
  synthesize (VObject []) <> Err InvalidRequest /\
  synthesize VUndefined = Err TypeError /\
  exists body, synthesize (request EmptyString []) = Ok body.
Proof.
  split; [|split; [|split; [|split]]].
  - intros (code & imports & Hcode & _). discriminate.
  - reflexivity.
  - discriminate.
  - reflexivity.
  - eexists. reflexivity.
Qed.

(** ** Merging coverage *)

Lemma merge_file_self (counters : FileCoverage) :
  merge_file counters counters = (fun n => 2 * n) <$> counters.
Proof.
  apply map_eq. intros key. unfold merge_file.
  rewrite lookup_union_with, lookup_fmap.
  destruct (counters !! key) as [n|]; simpl; [|reflexivity].
  f_equal. lia.
Qed.

Lemma merge_into_empty (snapshot : CoverageMap) :
  merge createCoverageMap snapshot = snapshot.
Proof.
  apply map_eq. intros file. unfold merge, createCoverageMap.
  rewrite lookup_union_with, lookup_empty.
  now destruct (snapshot !! file).
Qed.

Lemma merge_self (snapshot : CoverageMap) :
  merge snapshot snapshot = doubled snapshot.
Proof.
  apply map_eq. intros file. unfold merge, doubled.
  rewrite lookup_union_with, lookup_fmap.
  destruct (snapshot !! file) as [counters|]; simpl; [|reflexivity].
  now rewrite merge_file_self.
Qed.

Lemma hits_doubled (map : CoverageMap) (file key : string) :
  hits (doubled map) file key = 2 * hits map file key.
Proof.
  unfold hits, doubled. rewrite lookup_fmap.
  destruct (map !! file) as [counters|]; simpl; [|reflexivity].
  rewrite lookup_fmap. now destruct (counters !! key).
Qed.

(** C3. Merging a snapshot twice into an empty coverage map gives, file by
    file and location by location, exactly twice the counters of merging
    it once; so a second merge of a snapshot that counted anything changes
    the map: merge is not idempotent. *)
Theorem merge_twice_doubles (snapshot : CoverageMap) :
  let once := merge createCoverageMap snapshot in
  let twice := merge once snapshot in
  twice = doubled once /\
  (forall file key, hits twice file key = 2 * hits once file key) /\
  (forall file key, 0 < hits snapshot file key -> twice <> once).
Proof.
  intros once twice. subst once twice.
  rewrite merge_into_empty, merge_self.
  split; [reflexivity|]. split.
  - intros file key. apply hits_doubled.
  - intros file key Hpos Heq.
    pose proof (hits_doubled snapshot file key) as Hd.
    rewrite Heq in Hd. lia.
Qed.

Lemma merge_twice_doubles_witness :
  0 < hits foo_snapshot "foo.js" "f0" /\
  merge (merge createCoverageMap foo_snapshot) foo_snapshot <>
  merge createCoverageMap foo_snapshot.
Proof.
  assert (Hpos : 0 < hits foo_snapshot "foo.js" "f0")
    by (vm_compute; lia).
  split; [exact Hpos|].
  exact (proj2 (proj2 (merge_twice_doubles foo_snapshot))
           "foo.js" "f0" Hpos).
Defined.

(** ** The environment across calls *)

Lemma count_events_app p (l1 l2 : list Event) :
  count_events p (l1 ++ l2) = count_events p l1 + count_events p l2.
Proof. unfold count_events. now rewrite filter_app, length_app. Qed.

Lemma replay_app (l1 l2 : list Event) (acc : option CoverageMap) :
  replay (l1 ++ l2) acc = replay l2 (replay l1 acc).
Proof.
  revert acc. induction l1 as [|ev l1 IH]; intros acc; [reflexivity|].
  destruct ev; simpl; apply IH.
Qed.

Lemma calls_since_app {World} (m m' : Machine World) (calls : list Event) :
  log m' = log m ++ calls -> calls_since m m' = calls.
Proof. unfold calls_since. intros ->. apply drop_app_length. Qed.

Section Lifecycle.
Context {World : Type} `{Collaborators World}.

(** What a call of [render] does to the environment and to the log. *)
Lemma render_effect (data : Value) (m : Machine World) :
  let m' := snd (global_render data m) in
  driver (env m') = driver (env m) /\
  server (env m') = server (env m) /\
  containers (env m') = containers (env m) /\
  (consistent m -> consistent m') /\
  exists calls,
    log m' = log m ++ calls /\
    count_events is_report calls = 0 /\
    count_events is_server_stop calls = 0.
Proof.
  rewrite global_render_unfold, render_unfold.
  unfold consistent, after_transform, after_execute, after_merge.
  destruct (synthesize data) as [body|e]; simpl.
  2: { repeat split; try tauto. exists []. now rewrite app_nil_r. }
  destruct (transformSync body) as [code|e]; simpl.
  2: { repeat split; try reflexivity.
       - intros Hc. now rewrite replay_app, <- Hc.
       - eexists. split; [reflexivity|split; reflexivity]. }
  destruct (driver (env m)) as [d|] eqn:Hd; simpl.
  2: { repeat split; try congruence.
       - intros Hc. now rewrite replay_app, <- Hc.
       - eexists. split; [reflexivity|split; reflexivity]. }
  destruct (executeAsyncScript d code (world m)) as [[r|e] w]; simpl.
  2: { repeat split; try congruence.
       - intros Hc. now rewrite replay_app, <- Hc.
       - eexists. split; [reflexivity|split; reflexivity]. }
  destruct (coverageMap (env m)) as [map|] eqn:Hm; simpl.
  - repeat split; try congruence.
    + intros Hc. now rewrite replay_app, <- Hc.
    + eexists. split; [reflexivity|split; reflexivity].
  - repeat split; try congruence.
    + intros Hc. now rewrite replay_app, <- Hc.
    + eexists. split; [reflexivity|split; reflexivity].
Qed.

Lemma renders_effect (requests : list Value) (m : Machine World) :
  let m' := snd (renders requests m) in
  driver (env m') = driver (env m) /\
  server (env m') = server (env m) /\
  containers (env m') = containers (env m) /\
  (consistent m -> consistent m') /\
  exists calls,
    log m' = log m ++ calls /\
    count_events is_report calls = 0 /\
    count_events is_server_stop calls = 0.
Proof.
  revert m. induction requests as [|data rest IH]; intros m; simpl.
  - repeat split; try tauto. exists []. now rewrite app_nil_r.
  - pose proof (render_effect data m) as Hr. simpl in Hr.
    destruct (global_render data m) as [r m1]. simpl in Hr.
    specialize (IH m1). simpl in IH.
    destruct (renders rest m1) as [rs m2]. simpl in *.
    destruct Hr as (Hd & Hs & Hk & Hc & calls1 & Hl1 & Hr1 & Hp1).
    destruct IH as (Hd' & Hs' & Hk' & Hc' & calls2 & Hl2 & Hr2 & Hp2).
    repeat split; try congruence; try tauto.
    exists (calls1 ++ calls2). rewrite Hl2, Hl1, <- app_assoc.
    rewrite !count_events_app. repeat split; lia.
Qed.

(** What [setup] does when it completes. *)
Lemma setup_effect (m : Machine World) :
  let m' := snd (setup m) in
  (fst (setup m) = Ok tt ->
     coverageMap (env m') = Some createCoverageMap /\
     containers (env m') = Some [] /\
     is_Some (driver (env m')) /\ is_Some (server (env m'))) /\
  (consistent m -> consistent m') /\
  exists calls,
    log m' = log m ++ calls /\
    count_events is_report calls = 0 /\
    count_events is_server_stop calls = 0.
Proof.
  unfold consistent. run.
  destruct (super_setup (world m)) as [[d|e] w]; simpl.
  - destruct (require_server w) as [[srv|e] w']; simpl.
    + destruct (stoppable srv 0 w') as [[[]|e] w'']; simpl.
      * split; [intros _; repeat split; eauto|]. split.
        -- intros _. rewrite <- !app_assoc, !replay_app. reflexivity.
        -- eexists. rewrite <- !app_assoc.
           split; [reflexivity|split; reflexivity].
      * split; [discriminate|]. split.
        -- intros Hc. rewrite <- !app_assoc, replay_app, <- Hc. reflexivity.
        -- eexists. rewrite <- !app_assoc.
           split; [reflexivity|split; reflexivity].
    + split; [discriminate|]. split.
      * intros Hc. rewrite <- !app_assoc, replay_app, <- Hc. reflexivity.
      * eexists. rewrite <- !app_assoc.
        split; [reflexivity|split; reflexivity].
  - split; [discriminate|]. split.
    + intros Hc. rewrite replay_app, <- Hc. reflexivity.
    + eexists. split; [reflexivity|split; reflexivity].
Qed.

(** [teardown] assigns no field and merges nothing. *)
Lemma teardown_effect (m : Machine World) :
  let m' := snd (teardown m) in
  env m' = env m /\
  (consistent m -> consistent m') /\
  exists calls,
    log m' = log m ++ EvSuperTeardown :: calls /\
    count_events is_report calls <= 1 /\
    count_events is_merge calls = 0.
Proof.
  unfold consistent. run.
  destruct (super_teardown (world m)) as [[[]|e] w]; simpl.
  - destruct (reporter_write report_formats (coverageMap (env m)) w)
      as [[[]|e] w']; simpl.
    + destruct (server (env m)) as [srv|]; simpl.
      * destruct (server_stop srv w') as [r w'']; simpl.
        split; [reflexivity|]. split.
        -- intros Hc. rewrite <- !app_assoc, replay_app, <- Hc. reflexivity.
        -- eexists. rewrite <- !app_assoc. simpl.
           split; [reflexivity|]. split; [|reflexivity].
           unfold count_events. simpl. lia.
      * split; [reflexivity|]. split.
        -- intros Hc. rewrite <- !app_assoc, replay_app, <- Hc. reflexivity.
        -- eexists. rewrite <- !app_assoc. simpl.
           split; [reflexivity|]. split; [|reflexivity].
           unfold count_events. simpl. lia.
    + split; [reflexivity|]. split.
      * intros Hc. rewrite <- !app_assoc, replay_app, <- Hc. reflexivity.
      * eexists. rewrite <- !app_assoc. simpl.
        split; [reflexivity|]. split; [|reflexivity].
        unfold count_events. simpl. lia.
  - split; [reflexivity|]. split.
    + intros Hc. rewrite replay_app, <- Hc. reflexivity.
    + exists []. split; [reflexivity|]. split; [|reflexivity].
      unfold count_events. simpl. lia.
Qed.

(** From [setup] on, the coverage map holds exactly the snapshots of the
    calls of [render] that completed, merged in their order. *)
Lemma renders_consistent (requests : list Value) (m : Machine World) :
  consistent m -> consistent (snd (renders requests (snd (setup m)))).
Proof.
  intros Hc.
  destruct (setup_effect m) as (_ & Hs & _).
  destruct (renders_effect requests (snd (setup m))) as (_ & _ & _ & Hr & _).
  auto.
Qed.
(** [setup] and [teardown], collaborator by collaborator. *)
Lemma setup_unfold (m : Machine World) :
  setup m =
  match super_setup (world m) with
  | (Err e, w) =>
      (Err e, {| world := w; env := env m; log := log m ++ [EvSuperSetup] |})
  | (Ok d, w) =>
      match require_server w with
      | (Err e, w') =>
          (Err e,
           {| world := w';
              env := {| driver := Some d; server := server (env m);
                        coverageMap := coverageMap (env m);
                        containers := containers (env m) |};
              log := log m ++ [EvSuperSetup; EvRequireServer] |})
      | (Ok srv, w') =>
          match stoppable srv 0 w' with
          | (Err e, w'') =>
              (Err e,
               {| world := w'';
                  env := {| driver := Some d; server := Some srv;
                            coverageMap := coverageMap (env m);
                            containers := containers (env m) |};
                  log := log m ++ [EvSuperSetup; EvRequireServer;
                                   EvStoppable srv 0] |})
          | (Ok _, w'') =>
              (Ok tt,
               {| world := w'';
                  env := {| driver := Some d; server := Some srv;
                            coverageMap := Some createCoverageMap;
                            containers := Some [] |};
                  log := log m ++ [EvSuperSetup; EvRequireServer;
                                   EvStoppable srv 0;
                                   EvCreateCoverageMap] |})
          end
      end
  end.
Proof.
  run. destruct (super_setup (world m)) as [[d|e] w]; simpl; [|reflexivity].
  destruct (require_server w) as [[srv|e] w']; simpl;
    [|now rewrite <- !app_assoc].
  destruct (stoppable srv 0 w') as [[[]|e] w'']; simpl;
    now rewrite <- !app_assoc.
Qed.

Lemma teardown_unfold (m : Machine World) :
  teardown m =
  match super_teardown (world m) with
  | (Err e, w) =>
      (Err e,
       {| world := w; env := env m; log := log m ++ [EvSuperTeardown] |})
  | (Ok _, w) =>
      let report := EvReport report_formats (coverageMap (env m)) in
      match reporter_write report_formats (coverageMap (env m)) w with
      | (Err e, w') =>
          (Err e,
           {| world := w'; env := env m;
              log := log m ++ [EvSuperTeardown; report] |})
      | (Ok _, w') =>
          match server (env m) with
          | None =>
              (Err TypeError,
               {| world := w'; env := env m;
                  log := log m ++ [EvSuperTeardown; report] |})
          | Some srv =>
              (fst (server_stop srv w'),
               {| world := snd (server_stop srv w'); env := env m;
                  log := log m ++ [EvSuperTeardown; report;
                                   EvServerStop srv] |})
          end
      end
  end.
Proof.
  run. destruct (super_teardown (world m)) as [[[]|e] w]; simpl;
    [|reflexivity].
  destruct (reporter_write report_formats (coverageMap (env m)) w)
    as [[[]|e] w']; simpl; [|now rewrite <- !app_assoc].
  destruct (server (env m)) as [srv|]; simpl; [|now rewrite <- !app_assoc].
  destruct (server_stop srv w') as [r w'']; simpl.
  now rewrite <- !app_assoc.
Qed.

End Lifecycle.

Section Claims.
Context {World : Type} `{Collaborators World}.

(** C9. [setup] leaves the registry of containers empty, and no call of
    [render], failed or not, and no [teardown] puts anything in it:
    after any sequence of renders it is still the empty array. *)
Theorem registry_stays_empty (requests : list Value) (m : Machine World) :
  fst (setup m) = Ok tt ->
  let ready := snd (setup m) in
  let used := snd (renders requests ready) in
  containers (env ready) = Some [] /\
  containers (env used) = Some [] /\
  (forall data,
     containers (env (snd (global_render data used))) = Some []) /\
  containers (env (snd (teardown used))) = Some [].
Proof.
  intros Hok ready used.
  destruct (setup_effect m) as (Hs & _). fold ready in Hs.
  destruct (Hs Hok) as (_ & Hk & _).
  destruct (renders_effect requests ready) as (_ & _ & Hr & _).
  fold used in Hr.
  assert (Hu : containers (env used) = Some []) by congruence.
  repeat split; try assumption.
  - intros data.
    destruct (render_effect data used) as (_ & _ & Hd & _). congruence.
  - destruct (teardown_effect used) as (He & _). now rewrite He.
Qed.

(** C7, as the code has it.  [teardown] starts with the parent's
    [teardown], which releases the session.  When that returns, the report
    sink is called on the world it leaves, once, with the formats json,
    text and lcov and the coverage map of the environment, and then the
    server is stopped; [setup] and [render] never call the sink, so the
    lifecycle has exactly one call of it.  When the parent throws,
    [teardown] ends there with that error and the sink is not called. *)
Theorem report_sink_called_once (requests : list Value)
    (m : Machine World) :
  let ready := snd (setup m) in
  let used := snd (renders requests ready) in
  (forall w1,
     super_teardown (world used) = (Ok tt, w1) ->
     teardown used =
       (let report :=
          EvReport ["json"; "text"; "lcov"] (coverageMap (env used)) in
        match
          reporter_write ["json"; "text"; "lcov"] (coverageMap (env used)) w1
        with
        | (Err e, w2) =>
            (Err e,
             {| world := w2; env := env used;
                log := log used ++ [EvSuperTeardown; report] |})
        | (Ok _, w2) =>
            match server (env used) with
            | None =>
                (Err TypeError,
                 {| world := w2; env := env used;
                    log := log used ++ [EvSuperTeardown; report] |})
            | Some srv =>
                (fst (server_stop srv w2),
                 {| world := snd (server_stop srv w2); env := env used;
                    log := log used ++ [EvSuperTeardown; report;
                                        EvServerStop srv] |})
            end
        end) /\
     (exists calls,
        calls_since used (snd (teardown used)) =
          EvSuperTeardown
            :: EvReport ["json"; "text"; "lcov"] (coverageMap (env used))
            :: calls /\
        count_events is_report calls = 0) /\
     count_events is_report (calls_since m (lifecycle requests m)) = 1) /\
  (forall e w1,
     super_teardown (world used) = (Err e, w1) ->
     teardown used =
       (Err e,
        {| world := w1; env := env used;
           log := log used ++ [EvSuperTeardown] |}) /\
     count_events is_report (calls_since m (lifecycle requests m)) = 0).
Proof.
  intros ready used.
  destruct (setup_effect m) as (_ & _ & c1 & Hl1 & Hr1 & _).
  destruct (renders_effect requests (snd (setup m)))
    as (_ & _ & _ & _ & c2 & Hl2 & Hr2 & _).
  fold ready in Hl1, Hl2. fold used in Hl2.
  assert (Hlife : lifecycle requests m = snd (teardown used)).
  { unfold lifecycle, used, ready.
    destruct (setup m) as [r1 m1]. simpl.
    destruct (renders requests m1) as [r2 m2]. reflexivity. }
  split.
  - intros w1 Hsuper.
    assert (Hcalls : exists calls,
               log (snd (teardown used)) =
                 log used ++
                   EvSuperTeardown
                   :: EvReport ["json"; "text"; "lcov"]
                        (coverageMap (env used)) :: calls /\
               count_events is_report calls = 0).
    { rewrite teardown_unfold, Hsuper. cbv zeta.
      destruct (reporter_write report_formats (coverageMap (env used)) w1)
        as [[[]|e] w2]; [destruct (server (env used)) as [srv|]|];
        eexists; (split; [reflexivity|reflexivity]). }
    split; [now rewrite teardown_unfold, Hsuper|].
    destruct Hcalls as (calls & Hlog & Hnone).
    split.
    + exists calls. split; [|exact Hnone]. now apply calls_since_app.
    + rewrite Hlife. erewrite calls_since_app.
      2: { rewrite Hlog, Hl2, Hl1, <- !app_assoc. reflexivity. }
      rewrite !count_events_app, Hr1, Hr2.
      unfold count_events in *. simpl. rewrite Hnone. reflexivity.
  - intros e w1 Hsuper.
    assert (Htd : teardown used =
              (Err e,
               {| world := w1; env := env used;
                  log := log used ++ [EvSuperTeardown] |})).
    { now rewrite teardown_unfold, Hsuper. }
    split; [exact Htd|].
    rewrite Hlife, Htd. cbn [snd].
    erewrite calls_since_app.
    2: { cbn [log]. rewrite Hl2, Hl1, <- !app_assoc. reflexivity. }
    rewrite !count_events_app, Hr1, Hr2. reflexivity.
Qed.

(** C8, as the code has it.  When the report sink throws, the parent's
    [teardown] has already released the session, so the failure does not
    stand in the way of that; but nothing catches it: [teardown] ends
    there with the sink's error, and the server is not asked to stop. *)
Theorem failed_report_propagates (m : Machine World) (w1 w2 : World)
    (e : Error) :
  super_teardown (world m) = (Ok tt, w1) ->
  reporter_write report_formats (coverageMap (env m)) w1 = (Err e, w2) ->
  teardown m =
    (Err e,
     {| world := w2; env := env m;
        log := log m ++
                 [EvSuperTeardown;
                  EvReport ["json"; "text"; "lcov"]
                    (coverageMap (env m))] |}).
Proof.
  intros Hsuper Hsink. run. rewrite Hsuper. simpl.
  rewrite Hsink. simpl.
  now rewrite <- app_assoc.
Qed.



End Claims.

Lemma registry_stays_empty_witness :
  containers (env (snd (renders [foo_request; VUndefined]
                          (lab_ready [Ok foo_result] true)))) = Some [].
Proof.
  exact (proj1 (proj2 (registry_stays_empty [foo_request; VUndefined]
                         (lab [Ok foo_result] true) eq_refl))).
Defined.

Lemma report_sink_called_once_witness :
  count_events is_report
    (calls_since (lab [Ok foo_result] true)
       (lifecycle [foo_request] (lab [Ok foo_result] true))) = 1.
Proof.
  exact (proj2 (proj2
    (proj1 (report_sink_called_once [foo_request]
              (lab [Ok foo_result] true))
       {| session_open := false; replies := []; sink_works := true |}
       eq_refl))).
Defined.

(** A lifecycle whose parent [teardown] throws: [setup] and the render
    went through, [teardown] ends with the parent's error, and the report
    sink was never called, nor the server stopped. *)
Lemma parent_teardown_throws_no_report :
  fst (setup wedged_machine) = Ok tt /\
  fst (renders [foo_request] (snd (setup wedged_machine))) =
    [Ok "element-1"] /\
  fst (teardown (snd (renders [foo_request] (snd (setup wedged_machine)))))
    = Err SessionError /\
  count_events is_report
    (calls_since wedged_machine (lifecycle [foo_request] wedged_machine))
    = 0 /\
  count_events is_server_stop
    (calls_since wedged_machine (lifecycle [foo_request] wedged_machine))
    = 0.
Proof. repeat split; vm_compute; reflexivity. Qed.

Lemma failed_report_propagates_witness :
  teardown (lab_ready [] false) =
    (Err (ExternalError "EACCES"),
     {| world := {| session_open := false; replies := [];
                    sink_works := false |};
        env := env (lab_ready [] false);
        log := log (lab_ready [] false) ++
                 [EvSuperTeardown;
                  EvReport ["json"; "text"; "lcov"]
                    (coverageMap (env (lab_ready [] false)))] |}).
Proof.
  apply (failed_report_propagates (lab_ready [] false)
           {| session_open := false; replies := []; sink_works := false |});
    reflexivity.
Defined.

(** A sink that throws in [teardown]: the error comes out of [teardown]
    and the server is never asked to stop. *)
Lemma failed_report_skips_server_stop :
  fst (teardown (lab_ready [] false)) = Err (ExternalError "EACCES") /\
  calls_since (lab_ready [] false) (lab_closed [] false) =
    [EvSuperTeardown;
     EvReport ["json"; "text"; "lcov"] (Some createCoverageMap)] /\
  count_events is_server_stop
    (calls_since (lab_ready [] false) (lab_closed [] false)) = 0.
Proof. repeat split; reflexivity. Qed.




(** After the call that timed out, the next one returns its container and
    the coverage map holds its snapshot alone. *)
Example render_after_timeout :
  let ready := lab_ready [Err TimeoutError; Ok foo_result] true in
  let failed := snd (global_render foo_request ready) in
  fst (global_render foo_request failed) = Ok "element-1" /\
  coverageMap (env (snd (global_render foo_request failed))) =
    Some foo_snapshot.
Proof. split; reflexivity. Qed.

(** A script the transformer rejects: the error reaches the caller, the
    driver is not called and the environment is as before. *)
Example render_compile_error :
  let ready := lab_ready [Ok foo_result] true in
  fst (global_render (request "<" []) ready) = Err CompileError /\
  calls_since ready (snd (global_render (request "<" []) ready)) =
    [EvTransform rejected_script] /\
  env (snd (global_render (request "<" []) ready)) = env ready.
Proof. repeat split; reflexivity. Qed.

(** Two calls that return the same snapshot leave every counter doubled. *)
Example render_same_snapshot_twice :
  let ready := lab_ready [Ok foo_result; Ok foo_result] true in
  coverageMap (env (snd (renders [foo_request; foo_request] ready))) =
    Some (doubled foo_snapshot).
Proof. reflexivity. Qed.

Example synth_foo :
  synthesize (request "<Foo/>" ["const Foo = 1;"]) =
  Ok (intercalate newline (body_lines "<Foo/>" ["const Foo = 1;"])).
Proof. reflexivity. Qed.

(** * Further properties of the code *)

(** ** The wrapper run in the browser *)

Lemma substring_without_last (s : string) (c : ascii) :
  substring 0 (String.length s) (s +:+ String c EmptyString) = s.
Proof.
  induction s as [|a s IH]; [reflexivity|].
  rewrite append_cons. simpl. now rewrite IH.
Qed.

Lemma slice_without_last (s : string) (c : ascii) :
  slice (s +:+ String c EmptyString) 0 (-1) = s.
Proof.
  unfold slice, slice_index.
  rewrite length_append. simpl String.length.
  replace (Z.of_nat (String.length s + 1))
    with (Z.of_nat (String.length s) + 1)%Z by lia.
  cbn [Z.ltb Z.compare].
  replace (Z.to_nat (Z.min 0 (Z.of_nat (String.length s) + 1)))
    with 0 by lia.
  replace (Z.to_nat
             (Z.max
                (Z.max (Z.of_nat (String.length s) + 1 + -1) 0 -
                 Z.min 0 (Z.of_nat (String.length s) + 1)) 0))
    with (String.length s) by lia.
  apply substring_without_last.
Qed.

Lemma last_character (a : ascii) (s : string) :
  exists front c, String a s = front +:+ String c EmptyString.
Proof.
  revert a. induction s as [|b s IH]; intros a.
  - exists EmptyString, a. reflexivity.
  - destruct (IH b) as (front & c & ->).
    exists (String a front), c. reflexivity.
Qed.

(** X3. The function the browser builds calls the compiled code without
    its last character, whatever that character is; of an empty code
    nothing is left to drop. *)
Theorem script_source_drops_last_character (code : string) (c : ascii) :
  script_source (code +:+ String c EmptyString) = "(" +:+ code +:+ ")()" /\
  script_source EmptyString = "()()" /\
  String.length (script_source code) = 4 + (String.length code - 1).
Proof.
  split; [|split].
  - unfold script_source. now rewrite slice_without_last.
  - reflexivity.
  - destruct code as [|a code]; [reflexivity|].
    destruct (last_character a code) as (front & c' & ->).
    unfold script_source. rewrite slice_without_last.
    rewrite !length_append. simpl. lia.
Qed.

(** ** Counting the calls of a test file *)

Lemma snapshots_app (l1 l2 : list Event) :
  snapshots (l1 ++ l2) = snapshots l1 ++ snapshots l2.
Proof.
  induction l1 as [|ev l1 IH]; [reflexivity|].
  destruct ev; simpl; now rewrite ?IH.
Qed.

Lemma executed_on_app (l1 l2 : list Event) :
  executed_on (l1 ++ l2) = executed_on l1 ++ executed_on l2.
Proof.
  induction l1 as [|ev l1 IH]; [reflexivity|].
  destruct ev; simpl; now rewrite ?IH.
Qed.

Ltac shape :=
  repeat split; unfold count_events; simpl;
  try reflexivity; try lia; try (repeat constructor; fail);
  try (match goal with
       | |- context [coverageMap (env ?m)] =>
           now destruct (coverageMap (env m))
       end).

Section Calls.
Context {World : Type} `{Collaborators World}.

(** Everything one call of [render] adds to the log. *)
Lemma render_calls_shape (data : Value) (m : Machine World) :
  exists calls,
    log (snd (global_render data m)) = log m ++ calls /\
    count_events is_merge calls =
      (if is_ok (fst (global_render data m)) then 1 else 0) /\
    count_events is_transform calls =
      (if is_ok (synthesize data) then 1 else 0) /\
    count_events is_execute calls <= count_events is_transform calls /\
    coverageMap (env (snd (global_render data m))) =
      ((fun map => fold_left merge (snapshots calls) map)
         <$> coverageMap (env m)) /\
    Forall (fun d => driver (env m) = Some d) (executed_on calls).
Proof.
  rewrite global_render_unfold, render_unfold.
  unfold after_transform, after_execute, after_merge.
  destruct (synthesize data) as [body|e] eqn:Hs; simpl.
  2: { exists []. rewrite app_nil_r. shape. }
  destruct (transformSync body) as [code|e]; simpl.
  2: { eexists. split; [reflexivity|]. shape. }
  destruct (driver (env m)) as [d|] eqn:Hd; simpl.
  2: { eexists. split; [reflexivity|]. shape. }
  destruct (executeAsyncScript d code (world m)) as [[r|e] w]; simpl.
  2: { eexists. split; [reflexivity|]. shape. }
  destruct (coverageMap (env m)) as [map|] eqn:Hm; simpl.
  - eexists. split; [reflexivity|]. shape.
  - eexists. split; [reflexivity|]. shape.
Qed.

(** The same for the calls of a test file. *)
Lemma renders_calls_shape (requests : list Value) (m : Machine World) :
  exists calls,
    log (snd (renders requests m)) = log m ++ calls /\
    length (fst (renders requests m)) = length requests /\
    count_events is_merge calls = successes (fst (renders requests m)) /\
    count_events is_transform calls =
      length (filter (fun data => is_ok (synthesize data) = true) requests) /\
    count_events is_execute calls <= count_events is_transform calls /\
    coverageMap (env (snd (renders requests m))) =
      ((fun map => fold_left merge (snapshots calls) map)
         <$> coverageMap (env m)) /\
    Forall (fun d => driver (env m) = Some d) (executed_on calls).
Proof.
  revert m. induction requests as [|data rest IH]; intros m.
  - exists []. simpl. rewrite app_nil_r. shape.
  - simpl.
    destruct (render_calls_shape data m)
      as (c1 & Hl1 & Hm1 & Ht1 & Hx1 & Hc1 & Hd1).
    pose proof (render_effect data m) as (Hdrv & _).
    destruct (global_render data m) as [r m1]. simpl in *.
    destruct (IH m1) as (c2 & Hl2 & Hn2 & Hm2 & Ht2 & Hx2 & Hc2 & Hd2).
    destruct (renders rest m1) as [rs m2]. simpl in *.
    exists (c1 ++ c2).
    rewrite Hl2, Hl1, <- app_assoc, !count_events_app, snapshots_app,
      executed_on_app.
    split; [reflexivity|]. split; [now rewrite Hn2|]. split.
    { rewrite Hm1, Hm2. unfold successes. rewrite filter_cons.
      destruct r; reflexivity. }
    split.
    { rewrite Ht1, Ht2, filter_cons.
      destruct (synthesize data); reflexivity. }
    split; [lia|]. split.
    { rewrite Hc2, Hc1. destruct (coverageMap (env m)); simpl;
        [|reflexivity].
      now rewrite fold_left_app. }
    apply Forall_app. split; [exact Hd1|].
    now rewrite <- Hdrv.
Qed.
End Calls.

Section FurtherProperties.
Context {World : Type} `{Collaborators World}.

(** X4. Over the calls of a test file, [coverageMap.merge] is called once
    for each call of [render] that returned and never for one that threw:
    the merges in the log are as many as the containers handed back. *)
Theorem one_merge_per_completed_render (requests : list Value)
    (m : Machine World) :
  let results := fst (renders requests m) in
  let calls := calls_since m (snd (renders requests m)) in
  length results = length requests /\
  count_events is_merge calls = successes results /\
  length (snapshots calls) = successes results.
Proof.
  intros results calls. subst results calls.
  destruct (renders_calls_shape requests m)
    as (calls & Hlog & Hlen & Hmerge & _).
  rewrite (calls_since_app _ _ _ Hlog).
  split; [exact Hlen|]. split; [exact Hmerge|].
  rewrite <- Hmerge. clear.
  induction calls as [|ev calls IH]; [reflexivity|].
  destruct ev; unfold count_events in *; simpl; now rewrite ?IH.
Qed.

(** X5. The transformer is called once for every request the synthesizer
    accepts and for no other; the driver is called at most as often as
    the transformer, so at most once per request. *)
Theorem transformer_called_per_accepted_request (requests : list Value)
    (m : Machine World) :
  let calls := calls_since m (snd (renders requests m)) in
  count_events is_transform calls =
    length (filter (fun data => is_ok (synthesize data) = true) requests) /\
  count_events is_execute calls <= count_events is_transform calls /\
  count_events is_transform calls <= length requests.
Proof.
  intros calls. subst calls.
  destruct (renders_calls_shape requests m)
    as (calls & Hlog & _ & _ & Htransform & Hexecute & _).
  rewrite (calls_since_app _ _ _ Hlog).
  split; [exact Htransform|]. split; [exact Hexecute|].
  rewrite Htransform. apply length_filter.
Qed.

Lemma calls_since_step (m m1 m2 : Machine World) (c1 c2 : list Event) :
  log m1 = log m ++ c1 -> log m2 = log m1 ++ c2 ->
  calls_since m m2 = c1 ++ calls_since m1 m2.
Proof.
  intros H1 H2.
  rewrite (calls_since_app m1 m2 c2 H2).
  apply calls_since_app. now rewrite H2, H1, <- app_assoc.
Qed.

(** The coverage map, the world and the merges after the calls of a test
    file, from what the driver sent back. *)
Lemma renders_replies (requests : list Value) :
  forall (m : Machine World) (before : CoverageMap),
    coverageMap (env m) = Some before ->
    coverageMap (env (snd (renders requests m))) =
      Some (fold_left merge
              (List.map coverage
                 (fst (driver_replies (driver (env m)) requests (world m))))
              before) /\
    world (snd (renders requests m)) =
      snd (driver_replies (driver (env m)) requests (world m)) /\
    successes (fst (renders requests m)) =
      length (fst (driver_replies (driver (env m)) requests (world m))) /\
    snapshots (calls_since m (snd (renders requests m))) =
      List.map coverage
        (fst (driver_replies (driver (env m)) requests (world m))).
Proof.
  induction requests as [|data rest IH]; intros m before Hmap.
  - simpl. repeat split; try assumption.
    unfold calls_since. now rewrite drop_all.
  - cbn [renders driver_replies].
    rewrite global_render_unfold, render_unfold.
    unfold after_transform, after_execute, after_merge.
    destruct (synthesize data) as [body|e].
    2: { specialize (IH m before Hmap).
         destruct (renders rest m) as [rs m2]. exact IH. }
    destruct (transformSync body) as [code|e].
    2: { cbv beta iota.
         set (m1 := {| world := world m; env := env m;
                       log := log m ++ [EvTransform body] |}).
         specialize (IH m1 before Hmap).
         destruct (renders_effect rest m1)
           as (_ & _ & _ & _ & c2 & Hl2 & _).
         destruct (renders rest m1) as [rs m2]. cbn [fst snd] in *.
         rewrite (calls_since_step m m1 m2 [EvTransform body] c2
                    eq_refl Hl2).
         exact IH. }
    destruct (driver (env m)) as [d|] eqn:Hd.
    2: { cbv beta iota.
         set (m1 := {| world := world m; env := env m;
                       log := log m ++ [EvTransform body] |}).
         specialize (IH m1 before Hmap).
         destruct (renders_effect rest m1)
           as (_ & _ & _ & _ & c2 & Hl2 & _).
         cbn [world env m1] in IH. rewrite Hd in IH.
         destruct (renders rest m1) as [rs m2]. cbn [fst snd] in *.
         rewrite (calls_since_step m m1 m2 [EvTransform body] c2
                    eq_refl Hl2).
         exact IH. }
    destruct (executeAsyncScript d code (world m)) as [[r|e] w].
    2: { cbv beta iota.
         set (m1 := {| world := w; env := env m;
                       log := log m ++ [EvTransform body;
                                        EvExecute d code] |}).
         specialize (IH m1 before Hmap).
         destruct (renders_effect rest m1)
           as (_ & _ & _ & _ & c2 & Hl2 & _).
         cbn [world env m1] in IH. rewrite Hd in IH.
         destruct (renders rest m1) as [rs m2].
         destruct (driver_replies (Some d) rest w) as [replies w2].
         cbn [fst snd] in *.
         rewrite (calls_since_step m m1 m2
                    [EvTransform body; EvExecute d code] c2 eq_refl Hl2).
         exact IH. }
    rewrite Hmap. cbv beta iota.
    set (m1 := {| world := w;
                  env := {| driver := Some d;
                            server := server (env m);
                            coverageMap := Some (merge before (coverage r));
                            containers := containers (env m) |};
                  log := log m ++ [EvTransform body; EvExecute d code;
                                   EvMerge (coverage r)] |}).
    specialize (IH m1 (merge before (coverage r)) eq_refl).
    destruct (renders_effect rest m1) as (_ & _ & _ & _ & c2 & Hl2 & _).
    cbn [world env driver m1] in IH.
    destruct (renders rest m1) as [rs m2].
    destruct (driver_replies (Some d) rest w) as [replies w2].
    cbn [fst snd List.map fold_left length] in *.
    rewrite (calls_since_step m m1 m2
               [EvTransform body; EvExecute d code; EvMerge (coverage r)]
               c2 eq_refl Hl2).
    destruct IH as (Hcov & Hworld & Hcount & Hsnap).
    split; [exact Hcov|]. split; [exact Hworld|]. split.
    + unfold successes in *. rewrite filter_cons. simpl. now rewrite Hcount.
    + simpl. now rewrite Hsnap.
Qed.

(** X6. Once the environment has a coverage map, the calls of a test file
    leave in it that map with the coverage snapshots the driver sent back
    merged into it, oldest first, and nothing else; as many calls
    returned a container as the driver sent replies. *)
Theorem coverage_map_folds_snapshots (requests : list Value)
    (m : Machine World) (before : CoverageMap) :
  coverageMap (env m) = Some before ->
  let replies := driver_replies (driver (env m)) requests (world m) in
  coverageMap (env (snd (renders requests m))) =
    Some (fold_left merge (List.map coverage (fst replies)) before) /\
  world (snd (renders requests m)) = snd replies /\
  successes (fst (renders requests m)) = length (fst replies) /\
  snapshots (calls_since m (snd (renders requests m))) =
    List.map coverage (fst replies).
Proof.
  intros Hmap replies. subst replies.
  exact (renders_replies requests m before Hmap).
Qed.

(** X7. Every remote execution of a test file goes to the driver the
    environment holds when the file starts: [render] never changes the
    driver and never calls another one. *)
Theorem executions_on_environment_driver (requests : list Value)
    (m : Machine World) :
  Forall (fun d => driver (env m) = Some d)
    (executed_on (calls_since m (snd (renders requests m)))) /\
  driver (env (snd (renders requests m))) = driver (env m).
Proof.
  destruct (renders_calls_shape requests m)
    as (calls & Hlog & _ & _ & _ & _ & _ & Hdrv).
  rewrite (calls_since_app _ _ _ Hlog).
  split; [exact Hdrv|].
  now destruct (renders_effect requests m) as (Hd & _).
Qed.

(** X8. On an environment that has no driver (before [setup], or after a
    [setup] whose parent threw), [render] still synthesizes the script and
    calls the transformer, then throws a [TypeError]: the driver is never
    called, and neither the world nor the environment changes. *)
Theorem render_without_driver (data : Value) (m : Machine World) :
  driver (env m) = None ->
  let after := snd (global_render data m) in
  is_ok (fst (global_render data m)) = false /\
  world after = world m /\
  env after = env m /\
  count_events is_execute (calls_since m after) = 0 /\
  (forall body code,
     synthesize data = Ok body -> transformSync body = Ok code ->
     fst (global_render data m) = Err TypeError /\
     calls_since m after = [EvTransform body]).
Proof.
  intros Hnone. rewrite global_render_unfold, render_unfold, Hnone.
  unfold after_transform.
  destruct (synthesize data) as [body|e] eqn:Hs; simpl.
  - assert (Hcalls :
              calls_since m
                {| world := world m; env := env m;
                   log := log m ++ [EvTransform body] |} =
              [EvTransform body]).
    { now apply calls_since_app. }
    destruct (transformSync body) as [code|e] eqn:Ht; simpl;
      rewrite Hcalls;
      (split; [reflexivity|]); (split; [reflexivity|]);
      (split; [reflexivity|]); (split; [reflexivity|]);
      intros body' code' Hb Hc; simplify_eq;
      first [congruence | split; reflexivity].
  - split; [reflexivity|]. split; [reflexivity|]. split; [reflexivity|].
    split.
    + unfold calls_since. now rewrite drop_all.
    + intros body code Hb. discriminate.
Qed.

(** X9. When [require] of the server throws in [setup], the driver is
    already assigned and the coverage map is not.  A render on that
    environment runs the script in the browser and then throws a
    [TypeError] at the merge: the container and the snapshot are lost. *)
Theorem render_after_failed_require (data : Value) (m : Machine World)
    (d : Driver) (e : Error) (w1 w2 : World) :
  coverageMap (env m) = None ->
  super_setup (world m) = (Ok d, w1) ->
  require_server w1 = (Err e, w2) ->
  let partial := snd (setup m) in
  fst (setup m) = Err e /\
  driver (env partial) = Some d /\
  coverageMap (env partial) = None /\
  world partial = w2 /\
  (forall body code r w3,
     synthesize data = Ok body -> transformSync body = Ok code ->
     executeAsyncScript d code w2 = (Ok r, w3) ->
     fst (global_render data partial) = Err TypeError /\
     world (snd (global_render data partial)) = w3 /\
     calls_since partial (snd (global_render data partial)) =
       [EvTransform body; EvExecute d code]).
Proof.
  intros Hmap Hsuper Hrequire partial.
  assert (Hsetup : setup m =
            (Err e,
             {| world := w2;
                env := {| driver := Some d; server := server (env m);
                          coverageMap := coverageMap (env m);
                          containers := containers (env m) |};
                log := log m ++ [EvSuperSetup; EvRequireServer] |})).
  { now rewrite setup_unfold, Hsuper, Hrequire. }
  subst partial. rewrite Hsetup. simpl.
  split; [reflexivity|]. split; [reflexivity|]. split; [exact Hmap|].
  split; [reflexivity|].
  intros body code r w3 Hs Ht Hx.
  rewrite global_render_unfold, render_unfold. simpl.
  rewrite Hs, Ht, Hx, Hmap. unfold after_execute. simpl.
  split; [reflexivity|]. split; [reflexivity|].
  now apply calls_since_app.
Qed.

(** X10. The map [teardown] hands to the report sink is the empty map
    of [setup] with the snapshots the driver sent back to the renders
    merged into it, oldest first: the sink is called with that map on the
    world the parent's [teardown] leaves, and its error, if it throws, is
    the error of [teardown]. *)
Theorem teardown_reports_merged_coverage (requests : list Value)
    (m : Machine World) (w1 : World) :
  let ready := snd (setup m) in
  let used := snd (renders requests ready) in
  let merged :=
    fold_left merge
      (List.map coverage
         (fst (driver_replies (driver (env ready)) requests (world ready))))
      createCoverageMap in
  fst (setup m) = Ok tt ->
  super_teardown (world used) = (Ok tt, w1) ->
  coverageMap (env used) = Some merged /\
  world used =
    snd (driver_replies (driver (env ready)) requests (world ready)) /\
  In (EvReport ["json"; "text"; "lcov"] (Some merged))
     (calls_since used (snd (teardown used))) /\
  (forall e w2,
     reporter_write ["json"; "text"; "lcov"] (Some merged) w1 = (Err e, w2) ->
     teardown used =
       (Err e,
        {| world := w2; env := env used;
           log := log used ++
                    [EvSuperTeardown;
                     EvReport ["json"; "text"; "lcov"] (Some merged)] |})) /\
  (forall w2,
     reporter_write ["json"; "text"; "lcov"] (Some merged) w1 = (Ok tt, w2) ->
     world (snd (teardown used)) =
       match server (env used) with
       | Some srv => snd (server_stop srv w2)
       | None => w2
       end).
Proof.
  intros ready used merged Hsetup Hsuper.
  destruct (setup_effect m) as (Hs & _). fold ready in Hs.
  destruct (Hs Hsetup) as (Hmap & _).
  destruct (renders_replies requests ready createCoverageMap Hmap)
    as (Hcov & Hworld & _).
  fold used in Hcov, Hworld. fold merged in Hcov.
  split; [exact Hcov|]. split; [exact Hworld|].
  rewrite teardown_unfold, Hsuper, Hcov. cbv zeta.
  clearbody merged. unfold report_formats.
  split; [|split].
  - destruct (reporter_write ["json"; "text"; "lcov"] (Some merged) w1)
      as [[[]|e] w2];
      [destruct (server (env used)) as [srv|]|];
      cbn [snd]; (erewrite calls_since_app by reflexivity);
      simpl; auto.
  - intros e w2 Hsink. now rewrite Hsink.
  - intros w2 Hsink. rewrite Hsink.
    now destruct (server (env used)).
Qed.

(** X11. When nothing throws, [teardown] ends by stopping the server that
    [setup] required and made stoppable with no grace period, whatever
    was rendered in between; its result is that of [stop]. *)
Theorem teardown_stops_required_server (requests : list Value)
    (m : Machine World) (d : Driver) (srv : Server) (w1 w2 w3 w4 : World) :
  let ready := snd (setup m) in
  let used := snd (renders requests ready) in
  super_setup (world m) = (Ok d, w1) ->
  require_server w1 = (Ok srv, w2) ->
  super_teardown (world used) = (Ok tt, w3) ->
  reporter_write report_formats (coverageMap (env used)) w3 = (Ok tt, w4) ->
  In (EvStoppable srv 0) (calls_since m ready) /\
  calls_since used (snd (teardown used)) =
    [EvSuperTeardown;
     EvReport ["json"; "text"; "lcov"] (coverageMap (env used));
     EvServerStop srv] /\
  fst (teardown used) = fst (server_stop srv w4).
Proof.
  intros ready used Hsuper Hrequire Htear Hsink.
  assert (Hready : server (env ready) = Some srv /\
                   exists rest,
                     log ready =
                       log m ++ [EvSuperSetup; EvRequireServer;
                                 EvStoppable srv 0] ++ rest).
  { unfold ready. rewrite setup_unfold, Hsuper, Hrequire.
    destruct (stoppable srv 0 w2) as [[[]|e] w]; simpl.
    - split; [reflexivity|]. exists [EvCreateCoverageMap]. reflexivity.
    - split; [reflexivity|]. exists []. reflexivity. }
  destruct Hready as (Hserver & rest & Hlog).
  split.
  { rewrite (calls_since_app _ _ _ Hlog). simpl. auto. }
  assert (Hsrv : server (env used) = Some srv).
  { destruct (renders_effect requests ready) as (_ & Hs & _).
    fold used in Hs. now rewrite Hs. }
  rewrite teardown_unfold, Htear, Hsink, Hsrv. simpl.
  split; [|reflexivity]. now apply calls_since_app.
Qed.

End FurtherProperties.

Lemma coverage_map_folds_snapshots_witness :
  coverageMap
    (env (snd (renders [foo_request; VNull; foo_request]
                 (lab_ready [Ok foo_result; Ok foo_result] true)))) =
  Some (fold_left merge
          (List.map coverage
             (fst (driver_replies
                     (driver (env (lab_ready [Ok foo_result; Ok foo_result]
                                     true)))
                     [foo_request; VNull; foo_request]
                     (world (lab_ready [Ok foo_result; Ok foo_result]
                               true)))))
          createCoverageMap).
Proof.
  exact (proj1 (coverage_map_folds_snapshots
                  [foo_request; VNull; foo_request]
                  (lab_ready [Ok foo_result; Ok foo_result] true)
                  createCoverageMap eq_refl)).
Defined.

Lemma render_without_driver_witness :
  is_ok (fst (global_render foo_request (lab [Ok foo_result] true))) = false.
Proof.
  exact (proj1 (render_without_driver foo_request
                  (lab [Ok foo_result] true) eq_refl)).
Defined.

Lemma render_after_failed_require_witness :
  fst (setup offline_machine) = Err (ExternalError "MODULE_NOT_FOUND") /\
  driver (env (snd (setup offline_machine))) = Some 3.
Proof.
  pose proof (render_after_failed_require foo_request offline_machine 3
                (ExternalError "MODULE_NOT_FOUND") (offline 0) (offline 0)
                eq_refl eq_refl eq_refl) as (Hsetup & Hdriver & _).
  split; [exact Hsetup | exact Hdriver].
Defined.

Lemma teardown_reports_merged_coverage_witness :
  coverageMap
    (env (snd (renders [foo_request] (lab_ready [Ok foo_result] true)))) =
  Some (fold_left merge
          (List.map coverage
             (fst (driver_replies
                     (driver (env (lab_ready [Ok foo_result] true)))
                     [foo_request]
                     (world (lab_ready [Ok foo_result] true)))))
          createCoverageMap).
Proof.
  exact (proj1 (teardown_reports_merged_coverage [foo_request]
                  (lab [Ok foo_result] true)
                  {| session_open := false; replies := [];
                     sink_works := true |}
                  eq_refl eq_refl)).
Defined.

(** The driver's replies in the laboratory: one snapshot came back. *)
Example lab_driver_replies :
  fst (driver_replies (Some 1) [foo_request; VNull]
         {| session_open := true; replies := [Ok foo_result];
            sink_works := true |}) = [foo_result].
Proof. reflexivity. Qed.

Lemma teardown_stops_required_server_witness :
  calls_since
    (snd (renders [foo_request] (lab_ready [Ok foo_result] true)))
    (snd (teardown
            (snd (renders [foo_request] (lab_ready [Ok foo_result] true)))))
  = [EvSuperTeardown;
     EvReport ["json"; "text"; "lcov"] (Some foo_snapshot);
     EvServerStop 8].
Proof.
  exact (proj1 (proj2
    (teardown_stops_required_server [foo_request]
       (lab [Ok foo_result] true) 1 8
       {| session_open := true; replies := [Ok foo_result];
          sink_works := true |}
       {| session_open := true; replies := [Ok foo_result];
          sink_works := true |}
       {| session_open := false; replies := []; sink_works := true |}
       {| session_open := false; replies := []; sink_works := true |}
       eq_refl eq_refl eq_refl eq_refl))).
Defined.

(** The offline world, run: the render that follows the failed [setup]
    reaches the browser and then throws. *)
Example offline_render_loses_container :
  fst (global_render foo_request (snd (setup offline_machine))) =
    Err TypeError /\
  world (snd (global_render foo_request (snd (setup offline_machine)))) =
    offline 1.
Proof. split; reflexivity. Qed.
